(** * dwarf-to-json: the host-side bridge [convertDwarfToJSON] (misc/index.js)

    The bridge moves the caller's bytes into the linear memory of the
    WebAssembly module, calls its [convert_dwarf] export, reads the result
    descriptor back, decodes the output as text and frees what it can.

    The development follows the source line by line:
    - [JS]      the pieces of the JavaScript platform the bridge uses
                (typed-array views, [DataView.getUint32], [TextDecoder]);
    - [Wasm]    the interface of the imported module (its exports and memory);
    - [Bridge]  [convertDwarfToJSON] itself, as a program in a small
                state-and-exception monad that also logs every call into the
                module and every access to its memory;
    - [Toy]     a small concrete module used to run the bridge. *)

From Stdlib Require Import ZArith List Bool Lia.
From Stdlib Require Import Strings.Byte.
Import ListNotations.
Local Open Scope Z_scope.

(* ================================================================= *)
(** ** Bytes and byte buffers *)

Definition byte_val (b : byte) : Z := Z.of_N (Byte.to_N b).

Definition byte_of_Z (z : Z) : byte :=
  match Byte.of_N (Z.to_N (z mod 256)) with
  | Some b => b
  | None => x00
  end.

Definition Zlen {X : Type} (l : list X) : Z := Z.of_nat (length l).

(** [len] elements of [buf] starting at index [off]. *)
Definition slice {X : Type} (buf : list X) (off len : Z) : list X :=
  firstn (Z.to_nat len) (skipn (Z.to_nat off) buf).

(** [buf] with [data] written over the elements starting at index [off]. *)
Definition poke {X : Type} (buf : list X) (off : Z) (data : list X) : list X :=
  firstn (Z.to_nat off) buf ++ data ++ skipn (Z.to_nat off + length data) buf.

(** Unsigned value of a byte string, least significant byte first. *)
Fixpoint le_value (bs : list byte) : Z :=
  match bs with
  | [] => 0
  | b :: rest => byte_val b + 256 * le_value rest
  end.

(** The unsigned 32-bit value whose little-endian bytes are [b0 b1 b2 b3]. *)
Definition u32le (b0 b1 b2 b3 : byte) : Z :=
  byte_val b0 + 2 ^ 8 * byte_val b1 + 2 ^ 16 * byte_val b2
  + 2 ^ 24 * byte_val b3.

(** The four little-endian bytes of [v mod 2^32]. *)
Definition le_bytes32 (v : Z) : list byte :=
  [ byte_of_Z v; byte_of_Z (Z.shiftr v 8);
    byte_of_Z (Z.shiftr v 16); byte_of_Z (Z.shiftr v 24) ].

(* ================================================================= *)
(** ** The JavaScript platform *)

Module JS.

(** Exceptions that can leave [convertDwarfToJSON].  [RuntimeError] is
    [WebAssembly.RuntimeError], thrown when a call into the module traps. *)
Inductive Exn := RangeError | TypeError | RuntimeError.

Inductive Completion (X : Type) :=
| Normal (x : X)
| Abrupt (e : Exn).
Arguments Normal {X} x.
Arguments Abrupt {X} e.

(** A view ([Uint8Array] or [DataView]) is a window onto a buffer. *)
Record View := { byteOffset : Z; byteLength : Z }.

(** [new Uint8Array(buffer, byteOffset, length)] and
    [new DataView(buffer, byteOffset, byteLength)]: a negative offset or
    length, or a window that ends past the buffer, is a [RangeError]. *)
Definition view_fits (bufferByteLength off len : Z) : bool :=
  (0 <=? off) && (0 <=? len) && (off + len <=? bufferByteLength).

Definition new_view (bufferByteLength off len : Z) : Completion View :=
  if view_fits bufferByteLength off len
  then Normal {| byteOffset := off; byteLength := len |}
  else Abrupt RangeError.

(** [view.getUint32(byteOffset, littleEndian)] over the buffer [buf]. *)
Definition getUint32 (buf : list byte) (v : View) (off : Z) (littleEndian : bool)
  : Completion Z :=
  if (0 <=? off) && (off + 4 <=? byteLength v)
  then let raw := slice buf (byteOffset v + off) 4 in
       Normal (le_value (if littleEndian then raw else rev raw))
  else Abrupt RangeError.

(** *** [TextDecoder] for UTF-8 (the Encoding Standard's decoder) *)

Record TextDecoder := { fatal : bool; ignoreBOM : bool }.

(** [new TextDecoder("utf-8")]: no options, so neither flag is set. *)
Definition new_TextDecoder : TextDecoder :=
  {| fatal := false; ignoreBOM := false |}.

Record Utf8 := {
  code_point : Z; bytes_seen : Z; bytes_needed : Z;
  lower_boundary : Z; upper_boundary : Z }.

Definition utf8_start : Utf8 :=
  {| code_point := 0; bytes_seen := 0; bytes_needed := 0;
     lower_boundary := 0x80; upper_boundary := 0xBF |}.

(** What the decoder hands over for a byte: code points, or an error. *)
Inductive Item := Scalar (c : Z) | Malformed.

Definition between (lo x hi : Z) : bool := (lo <=? x) && (x <=? hi).

(** A byte met while no sequence is open. *)
Definition utf8_lead (b : Z) : list Item * Utf8 :=
  if between 0x00 b 0x7F then ([Scalar b], utf8_start)
  else if between 0xC2 b 0xDF then
    ([], {| code_point := Z.land b 0x1F; bytes_seen := 0; bytes_needed := 1;
            lower_boundary := 0x80; upper_boundary := 0xBF |})
  else if between 0xE0 b 0xEF then
    ([], {| code_point := Z.land b 0xF; bytes_seen := 0; bytes_needed := 2;
            lower_boundary := if b =? 0xE0 then 0xA0 else 0x80;
            upper_boundary := if b =? 0xED then 0x9F else 0xBF |})
  else if between 0xF0 b 0xF4 then
    ([], {| code_point := Z.land b 0x7; bytes_seen := 0; bytes_needed := 3;
            lower_boundary := if b =? 0xF0 then 0x90 else 0x80;
            upper_boundary := if b =? 0xF4 then 0x8F else 0xBF |})
  else ([Malformed], utf8_start).

(** One byte through the decoder.  A byte outside the boundaries closes the
    open sequence with an error and is then read again as a lead byte. *)
Definition utf8_byte (s : Utf8) (b : Z) : list Item * Utf8 :=
  if bytes_needed s =? 0 then utf8_lead b
  else if negb (between (lower_boundary s) b (upper_boundary s)) then
    let '(items, s') := utf8_lead b in (Malformed :: items, s')
  else
    let cp := Z.lor (Z.shiftl (code_point s) 6) (Z.land b 0x3F) in
    let seen := bytes_seen s + 1 in
    if seen =? bytes_needed s then ([Scalar cp], utf8_start)
    else ([], {| code_point := cp; bytes_seen := seen;
                 bytes_needed := bytes_needed s;
                 lower_boundary := 0x80; upper_boundary := 0xBF |}).

Fixpoint utf8_run (s : Utf8) (bytes : list byte) : list Item :=
  match bytes with
  | [] => if bytes_needed s =? 0 then [] else [Malformed]
  | b :: rest =>
      let '(items, s') := utf8_byte s (byte_val b) in
      items ++ utf8_run s' rest
  end.

Definition is_malformed (i : Item) : bool :=
  match i with Malformed => true | Scalar _ => false end.

(** Replacement error mode: U+FFFD for every error. *)
Definition replaced (i : Item) : Z :=
  match i with Scalar c => c | Malformed => 0xFFFD end.

(** Text is a sequence of Unicode scalar values. *)
Definition text := list Z.

Definition strip_BOM (t : text) : text :=
  match t with
  | c :: rest => if c =? 0xFEFF then rest else t
  | [] => t
  end.

(** [decoder.decode(bytes)], one shot (no stream option). *)
Definition decode (d : TextDecoder) (bytes : list byte) : Completion text :=
  let items := utf8_run utf8_start bytes in
  if fatal d && existsb is_malformed items then Abrupt TypeError
  else
    let t := map replaced items in
    Normal (if ignoreBOM d then t else strip_BOM t).

End JS.


(* ================================================================= *)
(** ** The imported module: [./dwarf_to_json] *)

Module Wasm.

(** A running instance: the bytes of [memory.buffer] and whatever else the
    module keeps (its globals, the allocator's bookkeeping). *)
Record Instance (A : Type) := { memory : list byte; internals : A }.
Arguments memory {A} _.
Arguments internals {A} _.

(** The three exports the bridge imports.  Each call runs the module on the
    instance; [None] is a trap.  Nothing is assumed about what they do.
    Offsets and lengths cross the boundary as JavaScript numbers holding
    integers (the exports return 32-bit values), so the bridge's one sum,
    [resultPtr + 4], is exact. *)
Class Exports (A : Type) := {
  alloc_mem : Z -> Instance A -> option Z * Instance A;
  free_mem : Z -> Instance A -> option unit * Instance A;
  convert_dwarf : Z -> Z -> Z -> Z -> Instance A -> option unit * Instance A }.


End Wasm.

(* ================================================================= *)
(** ** The bridge *)

Module Bridge.
Import JS Wasm.

(** What the bridge does to the module, in the order it does it. *)
Inductive Event :=
| EAlloc (size : Z) (ret : option Z)      (* alloc_mem(size), with its result *)
| EFree (ptr : Z)                         (* free_mem(ptr) *)
| EConvert (a b c d : Z)                  (* convert_dwarf(a, b, c, d) *)
| EStore (addr : Z) (data : list byte)    (* bytes written to memory.buffer *)
| ELoad (addr len : Z) (data : list byte) (* bytes read from memory.buffer *)
| ENewTextDecoder.                        (* new TextDecoder("utf-8") *)

Section Program.
Context {A : Type} {module : Exports A}.

(** The state a call runs in: the module-level variable [utf8Decoder]
    ([None] is [undefined]), the module instance, and the log. *)
Record Machine := {
  utf8Decoder : option TextDecoder;
  instance : Instance A;
  trace : list Event }.

Definition Run (X : Type) : Type := Machine -> Completion X * Machine.

Definition ret {X : Type} (x : X) : Run X := fun m => (Normal x, m).

Definition throw {X : Type} (e : Exn) : Run X := fun m => (Abrupt e, m).

Definition bind {X Y : Type} (c : Run X) (k : X -> Run Y) : Run Y :=
  fun m =>
    match c m with
    | (Normal x, m') => k x m'
    | (Abrupt e, m') => (Abrupt e, m')
    end.

Definition lift {X : Type} (c : Completion X) : Run X := fun m => (c, m).

Definition emit (e : Event) : Run unit :=
  fun m => (Normal tt, {| utf8Decoder := utf8Decoder m;
                          instance := instance m;
                          trace := trace m ++ [e] |}).

Definition with_instance (i : Instance A) (m : Machine) : Machine :=
  {| utf8Decoder := utf8Decoder m; instance := i; trace := trace m |}.

(** A call into the module: a trap surfaces as a [RuntimeError]. *)
Definition export {X : Type} (f : Instance A -> option X * Instance A) : Run X :=
  fun m =>
    let '(r, i) := f (instance m) in
    match r with
    | Some x => (Normal x, with_instance i m)
    | None => (Abrupt RuntimeError, with_instance i m)
    end.

Notation "x <- c ;; k" := (bind c (fun x => k))
  (at level 61, c at next level, right associativity).
Notation "c ;;; k" := (bind c (fun _ => k))
  (at level 61, right associativity).

(** [alloc_mem(size)]; the log keeps what came back. *)
Definition call_alloc_mem (size : Z) : Run Z :=
  fun m =>
    let '(r, i) := alloc_mem size (instance m) in
    let m' := {| utf8Decoder := utf8Decoder m; instance := i;
                 trace := trace m ++ [EAlloc size r] |} in
    match r with
    | Some p => (Normal p, m')
    | None => (Abrupt RuntimeError, m')
    end.

Definition call_free_mem (ptr : Z) : Run unit :=
  emit (EFree ptr) ;;; export (free_mem ptr).

Definition call_convert_dwarf (a b c d : Z) : Run unit :=
  emit (EConvert a b c d) ;;; export (convert_dwarf a b c d).

(** [new Uint8Array(memory.buffer, off, len)] and
    [new DataView(memory.buffer, off, len)]: [memory.buffer] is read anew at
    each construction, so the bound is the buffer's current length. *)
Definition new_Uint8Array (off len : Z) : Run View :=
  fun m => (new_view (Zlen (memory (instance m))) off len, m).

Definition new_DataView (off len : Z) : Run View :=
  fun m => (new_view (Zlen (memory (instance m))) off len, m).

(** The instance after the host wrote [data] into its memory at [off]. *)
Definition written (i : Instance A) (off : Z) (data : list byte) : Instance A :=
  {| memory := poke (memory i) off data; internals := internals i |}.

(** [view.set(source)]: the source has to fit the view. *)
Definition view_set (v : View) (source : list byte) : Run unit :=
  fun m =>
    if Zlen source <=? byteLength v then
      (Normal tt,
       {| utf8Decoder := utf8Decoder m;
          instance := written (instance m) (byteOffset v) source;
          trace := trace m ++ [EStore (byteOffset v) source] |})
    else (Abrupt RangeError, m).

Definition view_getUint32 (v : View) (off : Z) (littleEndian : bool) : Run Z :=
  fun m =>
    let buf := memory (instance m) in
    match getUint32 buf v off littleEndian with
    | Normal x =>
        (Normal x,
         {| utf8Decoder := utf8Decoder m; instance := instance m;
            trace := trace m ++ [ELoad (byteOffset v + off) 4
                                       (slice buf (byteOffset v + off) 4)] |})
    | Abrupt e => (Abrupt e, m)
    end.

(** The bytes a [Uint8Array] shows, as [decode] reads them. *)
Definition view_bytes (v : View) : Run (list byte) :=
  fun m =>
    let data := slice (memory (instance m)) (byteOffset v) (byteLength v) in
    (Normal data,
     {| utf8Decoder := utf8Decoder m; instance := instance m;
        trace := trace m ++ [ELoad (byteOffset v) (byteLength v) data] |}).

Definition read_utf8Decoder : Run (option TextDecoder) :=
  fun m => (Normal (utf8Decoder m), m).

Definition assign_utf8Decoder (d : TextDecoder) : Run unit :=
  fun m => (Normal tt, {| utf8Decoder := Some d; instance := instance m;
                          trace := trace m |}).

(** [undefined] is falsy, an object is truthy. *)
Definition truthy (d : option TextDecoder) : bool :=
  match d with Some _ => true | None => false end.

(** [utf8Decoder.decode]: reading a property of [undefined] throws a
    [TypeError], and it does so before the call's argument is evaluated. *)
Definition member_decode (d : option TextDecoder) : Run TextDecoder :=
  match d with
  | Some dec => ret dec
  | None => throw TypeError
  end.

(** [let utf8Decoder;] *)
Definition utf8Decoder_initial : option TextDecoder := None.

(** [export function convertDwarfToJSON(wasm)], statement by statement. *)
Definition convertDwarfToJSON (wasm : list byte) : Run text :=
  let wasm_byteLength := Zlen wasm in
  (* line 21 *)
  wasmPtr <- call_alloc_mem wasm_byteLength ;;
  (* line 22 *)
  target <- new_Uint8Array wasmPtr wasm_byteLength ;;
  view_set target wasm ;;;
  (* line 23 *)
  resultPtr <- call_alloc_mem 12 ;;
  (* line 24 *)
  call_convert_dwarf wasmPtr wasm_byteLength resultPtr (resultPtr + 4) ;;;
  (* line 25 *)
  call_free_mem wasmPtr ;;;
  (* line 26 *)
  resultView <- new_DataView resultPtr 12 ;;
  (* line 27 *)
  outputPtr <- view_getUint32 resultView 0 true ;;
  outputLen <- view_getUint32 resultView 4 true ;;
  (* line 28 *)
  call_free_mem resultPtr ;;;
  (* lines 29-31 *)
  d <- read_utf8Decoder ;;
  (if truthy d
   then emit ENewTextDecoder ;;; assign_utf8Decoder new_TextDecoder
   else ret tt) ;;;
  (* line 32 *)
  d' <- read_utf8Decoder ;;
  decoder <- member_decode d' ;;
  source <- new_Uint8Array outputPtr outputLen ;;
  bytes <- view_bytes source ;;
  output <- lift (decode decoder bytes) ;;
  (* line 33 *)
  call_free_mem outputPtr ;;;
  (* line 34 *)
  ret output.

(** One call from the outside: the log starts empty. *)
Definition call (wasm : list byte) (d : option TextDecoder) (i : Instance A)
  : Completion text * Machine :=
  convertDwarfToJSON wasm {| utf8Decoder := d; instance := i; trace := [] |}.

Definition outcome (r : Completion text * Machine) : Completion text := fst r.
Definition events (r : Completion text * Machine) : list Event := trace (snd r).
Definition decoder_after (r : Completion text * Machine) : option TextDecoder :=
  utf8Decoder (snd r).
Definition instance_after (r : Completion text * Machine) : Instance A :=
  instance (snd r).

(** A sequence of calls on one loaded page: the variable [utf8Decoder] and
    the module instance live on from call to call, also after a throw. *)
Fixpoint session (inputs : list (list byte)) (d : option TextDecoder)
  (i : Instance A) : list (Completion text * list Event) * option TextDecoder :=
  match inputs with
  | [] => ([], d)
  | wasm :: rest =>
      let r := call wasm d i in
      let '(results, d') := session rest (decoder_after r) (instance_after r) in
      ((outcome r, events r) :: results, d')
  end.

(** *** How far a call gets

    The bridge has no branch of its own before the decoder test: how far a
    call gets is decided by the module (a trap ends the call) and by the
    bounds of the views.  The predicates name the values met on the way. *)

(** Both reserves return and the input region lies within memory: the call
    reaches the invocation with [wasmPtr] and [resultPtr] in hand. *)
Definition reaches_invocation (wasm : list byte) (i : Instance A)
  (wasmPtr resultPtr : Z) (i2 : Instance A) : Prop :=
  exists i1,
    alloc_mem (Zlen wasm) i = (Some wasmPtr, i1) /\
    view_fits (Zlen (memory i1)) wasmPtr (Zlen wasm) = true /\
    alloc_mem 12 (written i1 wasmPtr wasm) = (Some resultPtr, i2).

(** Moreover the conversion and the release of the input return and the
    descriptor lies within memory: the two fields are read from [i4]. *)
Definition reaches_descriptor (wasm : list byte) (i : Instance A)
  (wasmPtr resultPtr : Z) (i4 : Instance A) : Prop :=
  exists i2 i3,
    reaches_invocation wasm i wasmPtr resultPtr i2 /\
    convert_dwarf wasmPtr (Zlen wasm) resultPtr (resultPtr + 4) i2
      = (Some tt, i3) /\
    free_mem wasmPtr i3 = (Some tt, i4) /\
    view_fits (Zlen (memory i4)) resultPtr 12 = true.

(** Moreover the release of the descriptor returns, leaving [i5]: the call
    reaches the decoder test and the decode step. *)
Definition reaches_decode (wasm : list byte) (i : Instance A)
  (wasmPtr resultPtr : Z) (i4 i5 : Instance A) : Prop :=
  reaches_descriptor wasm i wasmPtr resultPtr i4 /\
  free_mem resultPtr i4 = (Some tt, i5).

(** The two fields of the descriptor at [resultPtr], as memory holds them. *)
Definition output_offset (i4 : Instance A) (resultPtr : Z) : Z :=
  le_value (slice (memory i4) resultPtr 4).

Definition output_length (i4 : Instance A) (resultPtr : Z) : Z :=
  le_value (slice (memory i4) (resultPtr + 4) 4).

End Program.

(** *** Reading a log *)

Definition is_alloc (e : Event) : bool :=
  match e with EAlloc _ _ => true | _ => false end.
Definition is_free (e : Event) : bool :=
  match e with EFree _ => true | _ => false end.
Definition is_convert (e : Event) : bool :=
  match e with EConvert _ _ _ _ => true | _ => false end.
Definition is_load (e : Event) : bool :=
  match e with ELoad _ _ _ => true | _ => false end.
Definition is_new_decoder (e : Event) : bool :=
  match e with ENewTextDecoder => true | _ => false end.
Definition is_store (e : Event) : bool :=
  match e with EStore _ _ => true | _ => false end.

(** The events a trap can follow: a reserve that did not return, an
    invocation, a release. *)
Definition may_trap (e : Event) : bool :=
  match e with
  | EAlloc _ None | EConvert _ _ _ _ | EFree _ => true
  | _ => false
  end.

Definition count (p : Event -> bool) (tr : list Event) : nat :=
  length (filter p tr).

(** The offsets passed to [free_mem], in order. *)
Definition freed (tr : list Event) : list Z :=
  flat_map (fun e => match e with EFree p => [p] | _ => [] end) tr.

(** The windows of memory read, in order. *)
Definition loads (tr : list Event) : list (Z * Z) :=
  flat_map (fun e => match e with ELoad a n _ => [(a, n)] | _ => [] end) tr.

(** What a call made without a decoder comes to: no text, no decoder made,
    at most the two releases and the two reads that precede the decode. *)
Definition stops_before_output (r : Completion text * list Event) : Prop :=
  (forall t, fst r <> Normal t) /\
  count is_new_decoder (snd r) = 0%nat /\
  (count is_free (snd r) <= 2)%nat /\
  (count is_load (snd r) <= 2)%nat.

End Bridge.

(* ================================================================= *)
(** ** A small module to run the bridge against *)

Module Toy.
Import JS Wasm Bridge.

(** What the toy allocator does when it cannot serve a request. *)
Inductive OnFailure := ReturnNull | Abort.

(** A bump allocator that never reuses memory.  It grants [quota] more
    requests, each only while there is room; after that it answers 0 or
    traps, as [on_failure] says.  [skew] is added to the output length the
    conversion declares (0 for an honest module). *)
Record Heap := { next : Z; quota : Z; on_failure : OnFailure; skew : Z }.

Definition bump (h : Heap) (size : Z) (q : Z) : Heap :=
  {| next := next h + size; quota := q;
     on_failure := on_failure h; skew := skew h |}.

Definition toy_alloc_mem (size : Z) (i : Instance Heap)
  : option Z * Instance Heap :=
  let h := internals i in
  if (0 <? quota h) && (0 <=? size) && (next h + size <=? Zlen (memory i))
  then (Some (next h),
        {| memory := memory i; internals := bump h size (quota h - 1) |})
  else match on_failure h with
       | ReturnNull => (Some 0, i)
       | Abort => (None, i)
       end.

Definition toy_free_mem (ptr : Z) (i : Instance Heap)
  : option unit * Instance Heap := (Some tt, i).

(** The conversion copies its input to a fresh region of its own and fills
    in the descriptor; it traps when the output does not fit. *)
Definition toy_convert_dwarf (a n r rl : Z) (i : Instance Heap)
  : option unit * Instance Heap :=
  let h := internals i in
  let out := next h in
  if (0 <=? n) && (out + n <=? Zlen (memory i)) then
    let m1 := poke (memory i) out (slice (memory i) a n) in
    let m2 := poke m1 r (le_bytes32 out) in
    let m3 := poke m2 rl (le_bytes32 (n + skew h)) in
    (Some tt, {| memory := m3; internals := bump h n (quota h) |})
  else (None, i).

#[export] Instance toy : Exports Heap := {
  alloc_mem := toy_alloc_mem;
  free_mem := toy_free_mem;
  convert_dwarf := toy_convert_dwarf }.

(** 64 bytes of zeroed memory of which the first 8 are taken. *)
Definition fresh (q : Z) (f : OnFailure) (sk : Z) : Instance Heap :=
  {| memory := repeat x00 64;
     internals := {| next := 8; quota := q; on_failure := f; skew := sk |} |}.

(** The module as it should be: room for every request, honest lengths. *)
Definition healthy : Instance Heap := fresh 100 ReturnNull 0.

(** A careless module on the same heap: its allocator hands out the next
    offset without looking whether memory reaches that far, and its
    conversion does nothing. *)
Definition careless_alloc_mem (size : Z) (i : Instance Heap)
  : option Z * Instance Heap :=
  let h := internals i in
  (Some (next h),
   {| memory := memory i; internals := bump h size (quota h) |}).

Definition careless_convert_dwarf (a n r rl : Z) (i : Instance Heap)
  : option unit * Instance Heap := (Some tt, i).



(** A module whose [free_mem] traps on the offset [bad]. *)
Definition brittle_free_mem (bad ptr : Z) (i : Instance Heap)
  : option unit * Instance Heap :=
  if ptr =? bad then (None, i) else (Some tt, i).

Definition brittle (bad : Z) : Exports Heap := {|
  alloc_mem := toy_alloc_mem;
  free_mem := brittle_free_mem bad;
  convert_dwarf := toy_convert_dwarf |}.

Definition careless : Exports Heap := {|
  alloc_mem := careless_alloc_mem;
  free_mem := toy_free_mem;
  convert_dwarf := careless_convert_dwarf |}.

End Toy.


(* ================================================================= *)
(** * Properties *)

Import JS Wasm Bridge.

(** ** Buffers *)

Lemma byte_val_range (b : byte) : 0 <= byte_val b < 256.
Proof.
  unfold byte_val. pose proof (Byte.to_N_bounded b) as H.
  lia.
Qed.





Lemma le_value_range (bs : list byte) : 0 <= le_value bs < 256 ^ Zlen bs.
Proof.
  unfold Zlen. induction bs as [|b bs IH]; cbn [le_value].
  - simpl. lia.
  - pose proof (byte_val_range b).
    replace (Z.of_nat (length (b :: bs))) with (Z.succ (Z.of_nat (length bs)))
      by (simpl length; lia).
    rewrite Z.pow_succ_r by lia. lia.
Qed.




Lemma view_fits_spec (n off len : Z) :
  view_fits n off len = true <-> 0 <= off /\ 0 <= len /\ off + len <= n.
Proof. unfold view_fits. lia. Qed.

(** ** Running the bridge symbolically *)

Section Steps.
Context {A : Type} {module : Exports A}.
Implicit Types (m : Machine (A:=A)) (i : Instance A).

Lemma bind_step {X Y : Type} (c : Run X) (k : X -> Run Y) m x m' :
  c m = (Normal x, m') -> bind c k m = k x m'.
Proof. unfold bind. now intros ->. Qed.

Lemma bind_stop {X Y : Type} (c : Run X) (k : X -> Run Y) m e m' :
  c m = (Abrupt e, m') -> bind c k m = (Abrupt e, m').
Proof. unfold bind. now intros ->. Qed.

Lemma alloc_returns size m p i' :
  alloc_mem size (instance m) = (Some p, i') ->
  call_alloc_mem size m =
    (Normal p, {| utf8Decoder := utf8Decoder m; instance := i';
                  trace := trace m ++ [EAlloc size (Some p)] |}).
Proof. unfold call_alloc_mem. now intros ->. Qed.

Lemma alloc_traps size m i' :
  alloc_mem size (instance m) = (None, i') ->
  call_alloc_mem size m =
    (Abrupt RuntimeError, {| utf8Decoder := utf8Decoder m; instance := i';
                             trace := trace m ++ [EAlloc size None] |}).
Proof. unfold call_alloc_mem. now intros ->. Qed.

Lemma free_returns ptr m i' :
  free_mem ptr (instance m) = (Some tt, i') ->
  call_free_mem ptr m =
    (Normal tt, {| utf8Decoder := utf8Decoder m; instance := i';
                   trace := trace m ++ [EFree ptr] |}).
Proof.
  unfold call_free_mem, bind, emit, export, with_instance. cbn.
  now intros ->.
Qed.

Lemma convert_returns a b c e m i' :
  convert_dwarf a b c e (instance m) = (Some tt, i') ->
  call_convert_dwarf a b c e m =
    (Normal tt, {| utf8Decoder := utf8Decoder m; instance := i';
                   trace := trace m ++ [EConvert a b c e] |}).
Proof.
  unfold call_convert_dwarf, bind, emit, export, with_instance. cbn.
  now intros ->.
Qed.

Lemma Uint8Array_fits off len m :
  view_fits (Zlen (memory (instance m))) off len = true ->
  new_Uint8Array off len m =
    (Normal {| byteOffset := off; byteLength := len |}, m).
Proof. unfold new_Uint8Array, new_view. now intros ->. Qed.

Lemma DataView_fits off len m :
  view_fits (Zlen (memory (instance m))) off len = true ->
  new_DataView off len m =
    (Normal {| byteOffset := off; byteLength := len |}, m).
Proof. unfold new_DataView, new_view. now intros ->. Qed.

Lemma set_whole_view off source m :
  view_set {| byteOffset := off; byteLength := Zlen source |} source m =
    (Normal tt, {| utf8Decoder := utf8Decoder m;
                   instance := written (instance m) off source;
                   trace := trace m ++ [EStore off source] |}).
Proof. unfold view_set. cbn. now rewrite Z.leb_refl. Qed.

(** The two reads of the 12-byte descriptor view are within the view. *)
Lemma getUint32_first ptr m :
  view_getUint32 {| byteOffset := ptr; byteLength := 12 |} 0 true m =
    (Normal (le_value (slice (memory (instance m)) ptr 4)),
     {| utf8Decoder := utf8Decoder m; instance := instance m;
        trace := trace m ++ [ELoad ptr 4 (slice (memory (instance m)) ptr 4)] |}).
Proof.
  unfold view_getUint32, getUint32. cbn. now rewrite Z.add_0_r.
Qed.

Lemma getUint32_second ptr m :
  view_getUint32 {| byteOffset := ptr; byteLength := 12 |} 4 true m =
    (Normal (le_value (slice (memory (instance m)) (ptr + 4) 4)),
     {| utf8Decoder := utf8Decoder m; instance := instance m;
        trace := trace m ++
                 [ELoad (ptr + 4) 4 (slice (memory (instance m)) (ptr + 4) 4)] |}).
Proof. reflexivity. Qed.

End Steps.

Ltac tidy :=
  cbn [utf8Decoder instance trace fst snd app byteOffset byteLength
       truthy fatal ignoreBOM new_TextDecoder andb].

(** One statement further, by a lemma that says how it ends. *)
Ltac step L := erewrite bind_step by (apply L; tidy; eassumption); tidy.

Ltac open_bridge :=
  unfold call_alloc_mem, call_free_mem,
    call_convert_dwarf, new_Uint8Array, new_DataView, view_set,
    view_getUint32, view_bytes, read_utf8Decoder, assign_utf8Decoder,
    member_decode, export, emit, with_instance, lift, ret, throw, new_view,
    bind;
  tidy.

(** Every remaining way the rest of the call can go: case analysis on
    what is still undetermined, innermost test first. *)
Ltac split_innermost :=
  match goal with
  | |- context [match ?x with _ => _ end] =>
      lazymatch x with
      | context [match _ with _ => _ end] => fail
      | _ => destruct x eqn:?
      end
  end.

Ltac all_paths :=
  open_bridge; unfold decode; tidy;
  repeat (split_innermost; tidy; try discriminate).

(** The statements up to the invocation, the descriptor, the decoder test. *)
Ltac walk_to_invocation H :=
  let i1 := fresh "i1" in
  let H1 := fresh "Hin" in let H2 := fresh "Hfit" in let H3 := fresh "Hdesc" in
  destruct H as (i1 & H1 & H2 & H3);
  unfold call, convertDwarfToJSON, events, outcome, decoder_after, instance_after;
  step @alloc_returns; step @Uint8Array_fits;
  (erewrite bind_step by apply set_whole_view); tidy;
  step @alloc_returns.

Ltac walk_to_descriptor H :=
  let i2 := fresh "i2" in let i3 := fresh "i3" in
  let H0 := fresh "Hinv" in
  let H4 := fresh "Hconv" in let H5 := fresh "Hfree" in let H6 := fresh "Hview" in
  destruct H as (i2 & i3 & H0 & H4 & H5 & H6);
  walk_to_invocation H0;
  step @convert_returns; step @free_returns; step @DataView_fits;
  (erewrite bind_step by apply getUint32_first); tidy;
  (erewrite bind_step by apply getUint32_second); tidy.

Ltac walk_to_decode H :=
  let H0 := fresh "Hdescr" in let H7 := fresh "Hfree2" in
  destruct H as (H0 & H7);
  walk_to_descriptor H0;
  step @free_returns.

Section Facts.
Context {A : Type} {module : Exports A}.
Implicit Types (wasm : list byte) (d : option TextDecoder) (i : Instance A).


(** The default decoder never throws: what is malformed is replaced. *)
Lemma decode_replaces (bytes : list byte) :
  decode new_TextDecoder bytes =
    Normal (strip_BOM (map replaced (utf8_run utf8_start bytes))).
Proof. reflexivity. Qed.

(** What every leaf of a case analysis asks for: a log that starts as
    stated, and facts about the rest that hold by computation. *)
Ltac leaf :=
  tidy; repeat (first [ eexists | split ]);
  try reflexivity; try discriminate; try (unfold count; simpl; lia).

(** The reserves and the copy-in, then the invocation: when both reserves
    return and the input region lies within memory, the log opens with those
    four events, whatever the offsets are. *)
Lemma invocation_prefix wasm d i wasmPtr resultPtr i2 :
  reaches_invocation wasm i wasmPtr resultPtr i2 ->
  exists rest,
    events (call wasm d i) =
      [ EAlloc (Zlen wasm) (Some wasmPtr); EStore wasmPtr wasm;
        EAlloc 12 (Some resultPtr);
        EConvert wasmPtr (Zlen wasm) resultPtr (resultPtr + 4) ] ++ rest
    /\ count is_convert rest = 0%nat.
Proof.
  intros H. walk_to_invocation H. all_paths; leaf.
Qed.

(** No call invokes the conversion twice. *)
Lemma invocation_at_most_once wasm d i :
  (count is_convert (events (call wasm d i)) <= 1)%nat.
Proof.
  unfold call, convertDwarfToJSON, events. all_paths; unfold count; simpl; lia.
Qed.

(** The invocation is made on the instance the second reserve left, and
    the call goes on from the instance the conversion leaves: a trap of the
    conversion ends the call with the module as the trap left it, and
    otherwise the release of the input runs on what the conversion left. *)
Lemma invocation_runs_the_module wasm d i wasmPtr resultPtr i2 :
  reaches_invocation wasm i wasmPtr resultPtr i2 ->
  (forall i3,
     convert_dwarf wasmPtr (Zlen wasm) resultPtr (resultPtr + 4) i2
       = (None, i3) ->
     outcome (call wasm d i) = Abrupt RuntimeError /\
     instance_after (call wasm d i) = i3 /\
     events (call wasm d i) =
       [ EAlloc (Zlen wasm) (Some wasmPtr); EStore wasmPtr wasm;
         EAlloc 12 (Some resultPtr);
         EConvert wasmPtr (Zlen wasm) resultPtr (resultPtr + 4) ]) /\
  (forall i3 r i4,
     convert_dwarf wasmPtr (Zlen wasm) resultPtr (resultPtr + 4) i2
       = (Some tt, i3) ->
     free_mem wasmPtr i3 = (r, i4) ->
     exists rest,
       events (call wasm d i) =
         [ EAlloc (Zlen wasm) (Some wasmPtr); EStore wasmPtr wasm;
           EAlloc 12 (Some resultPtr);
           EConvert wasmPtr (Zlen wasm) resultPtr (resultPtr + 4);
           EFree wasmPtr ] ++ rest /\
       (r = None ->
        outcome (call wasm d i) = Abrupt RuntimeError /\
        instance_after (call wasm d i) = i4 /\ rest = []) /\
       (r = Some tt ->
        view_fits (Zlen (memory i4)) resultPtr 12 = false ->
        outcome (call wasm d i) = Abrupt RangeError /\
        instance_after (call wasm d i) = i4 /\ rest = [])).
Proof.
  intros H. split.
  - intros i3 Htrap. walk_to_invocation H.
    open_bridge. rewrite Htrap. repeat split.
  - intros i3 r i4 Hconv Hfree. walk_to_invocation H.
    step @convert_returns. destruct r as [[] |].
    + step @free_returns.
      all_paths; eexists; (split; [reflexivity |]);
        (split; [discriminate |]); intros _ Hv;
        first [congruence | repeat split].
    + open_bridge. rewrite Hfree. tidy. exists [].
      split; [reflexivity |]. split; [intros _; repeat split | discriminate].
Qed.

(** C2 (as amended). A call invokes [convert_dwarf] at most once, and
    exactly once precisely when both reserves return and the input region
    lies within memory.  The invocation then carries the four arguments: the
    offset of the input region, the input's byte length, the offset of the
    12-byte descriptor region, and that offset plus 4; it is made on the
    instance the second reserve left, and the call goes on from what it
    leaves.  A call that does not get that far does not invoke it. *)
Theorem convert_dwarf_invoked_once wasm d i :
  (count is_convert (events (call wasm d i)) <= 1)%nat /\
  (count is_convert (events (call wasm d i)) = 1%nat <->
   exists wasmPtr resultPtr i2, reaches_invocation wasm i wasmPtr resultPtr i2) /\
  (forall wasmPtr resultPtr i2,
     reaches_invocation wasm i wasmPtr resultPtr i2 ->
     (exists rest,
        events (call wasm d i) =
          [ EAlloc (Zlen wasm) (Some wasmPtr); EStore wasmPtr wasm;
            EAlloc 12 (Some resultPtr);
            EConvert wasmPtr (Zlen wasm) resultPtr (resultPtr + 4) ] ++ rest
        /\ count is_convert rest = 0%nat) /\
     (forall i3,
        convert_dwarf wasmPtr (Zlen wasm) resultPtr (resultPtr + 4) i2
          = (None, i3) ->
        outcome (call wasm d i) = Abrupt RuntimeError /\
        instance_after (call wasm d i) = i3) /\
     (forall i3 r i4,
        convert_dwarf wasmPtr (Zlen wasm) resultPtr (resultPtr + 4) i2
          = (Some tt, i3) ->
        free_mem wasmPtr i3 = (r, i4) ->
        In (EFree wasmPtr) (events (call wasm d i)) /\
        (r = None ->
         outcome (call wasm d i) = Abrupt RuntimeError /\
         instance_after (call wasm d i) = i4) /\
        (r = Some tt ->
         view_fits (Zlen (memory i4)) resultPtr 12 = false ->
         outcome (call wasm d i) = Abrupt RangeError /\
         instance_after (call wasm d i) = i4))).
Proof.
  split; [apply invocation_at_most_once |]. split; [split |].
  - unfold call, convertDwarfToJSON, events.
    all_paths; unfold count; simpl; intros E; try discriminate;
      do 3 eexists; eexists;
      (split; [eassumption | split; eassumption]).
  - intros (wasmPtr & resultPtr & i2 & H).
    destruct (invocation_prefix wasm d i _ _ _ H) as (rest & -> & Hrest).
    unfold count in *. simpl. now rewrite Hrest.
  - intros wasmPtr resultPtr i2 H.
    destruct (invocation_runs_the_module wasm d i _ _ _ H) as (Htrap & Hgo).
    split; [exact (invocation_prefix wasm d i _ _ _ H) |]. split.
    + intros i3 Hc. destruct (Htrap i3 Hc) as (Ho & Hi & _). now split.
    + intros i3 r i4 Hc Hf.
      destruct (Hgo i3 r i4 Hc Hf) as (rest & -> & Hn & Hs).
      split; [simpl; auto 10 |]. split.
      * intros E. destruct (Hn E) as (Ho & Hi & _). now split.
      * intros E Hv. destruct (Hs E Hv) as (Ho & Hi & _). now split.
Qed.



(** A call made while [utf8Decoder] is [undefined]. *)
Lemma call_without_decoder wasm i :
  decoder_after (call wasm None i) = None /\
  stops_before_output (outcome (call wasm None i), events (call wasm None i)).
Proof.
  unfold stops_before_output, call, convertDwarfToJSON, events, outcome,
    decoder_after.
  all_paths; cbn [fst snd]; unfold count; simpl;
    (split; [reflexivity | split; [discriminate | split; [reflexivity | lia]]]).
Qed.

(** C10. The variable [utf8Decoder] starts [undefined] and the test
    [if (utf8Decoder)] assigns it only when it is set already: in every
    sequence of calls it stays [undefined], no decoder is ever made and no
    call returns text.  A call that reaches the decode step throws a
    [TypeError] there: by then the input and the descriptor are released, and
    the output region is neither read nor released. *)
Theorem decoder_never_constructed (inputs : list (list byte)) i :
  snd (session inputs utf8Decoder_initial i) = None /\
  Forall stops_before_output (fst (session inputs utf8Decoder_initial i)) /\
  forall wasm j wasmPtr resultPtr i4 i5,
    reaches_decode wasm j wasmPtr resultPtr i4 i5 ->
    outcome (call wasm utf8Decoder_initial j) = Abrupt TypeError /\
    events (call wasm utf8Decoder_initial j) =
      [ EAlloc (Zlen wasm) (Some wasmPtr); EStore wasmPtr wasm;
        EAlloc 12 (Some resultPtr);
        EConvert wasmPtr (Zlen wasm) resultPtr (resultPtr + 4);
        EFree wasmPtr;
        ELoad resultPtr 4 (slice (memory i4) resultPtr 4);
        ELoad (resultPtr + 4) 4 (slice (memory i4) (resultPtr + 4) 4);
        EFree resultPtr ] /\
    decoder_after (call wasm utf8Decoder_initial j) = None /\
    instance_after (call wasm utf8Decoder_initial j) = i5.
Proof.
  unfold utf8Decoder_initial. split; [| split].
  - revert i. induction inputs as [|wasm rest IH]; intros i; cbn [session].
    + reflexivity.
    + destruct (call_without_decoder wasm i) as (-> & _).
      specialize (IH (instance_after (call wasm None i))).
      destruct (session rest None _). exact IH.
  - revert i. induction inputs as [|wasm rest IH]; intros i; cbn [session].
    + constructor.
    + destruct (call_without_decoder wasm i) as (E & Hstop). rewrite E.
      specialize (IH (instance_after (call wasm None i))).
      destruct (session rest None _). constructor; assumption.
  - intros wasm j wasmPtr resultPtr i4 i5 H. walk_to_decode H.
    all_paths. repeat split.
Qed.

(** Whether a decoder is made depends on the test alone: one is made
    exactly when one is there already. *)
Lemma decoder_made_iff_present wasm d i wasmPtr resultPtr i4 i5 :
  reaches_decode wasm i wasmPtr resultPtr i4 i5 ->
  count is_new_decoder (events (call wasm d i)) = (if truthy d then 1 else 0)%nat.
Proof.
  intros H. walk_to_decode H. destruct d; all_paths; reflexivity.
Qed.



(** C5 (as amended). The bridge has no validation of its own.  When the
    descriptor addresses bytes outside memory, the call fails with an
    exception (with a decoder at hand, the [RangeError] of the [Uint8Array]
    constructor); no byte of the output is read: the only reads are the two
    of the descriptor; and the output region is not released. *)
Theorem out_of_bounds_output_not_read wasm d i wasmPtr resultPtr i4 i5 :
  reaches_decode wasm i wasmPtr resultPtr i4 i5 ->
  view_fits (Zlen (memory i5))
    (output_offset i4 resultPtr) (output_length i4 resultPtr) = false ->
  (exists e, outcome (call wasm d i) = Abrupt e) /\
  (d <> None -> outcome (call wasm d i) = Abrupt RangeError) /\
  loads (events (call wasm d i)) = [(resultPtr, 4); (resultPtr + 4, 4)] /\
  freed (events (call wasm d i)) = [wasmPtr; resultPtr].
Proof.
  unfold output_offset, output_length. intros H Hout. walk_to_decode H.
  destruct d as [dec|]; open_bridge; rewrite ?Hout; tidy.
  - repeat split. now exists RangeError.
  - repeat split; [now exists TypeError | congruence].
Qed.

(** C6 (as amended). The bridge has no decoding error: the decoder it uses
    is the default one, which replaces what is malformed by U+FFFD.  The
    input and the descriptor are released before the decode step.  A call
    that returns text returns the whole output decoded with replacement and
    has then released the output region; a call that fails otherwise than by
    a trap has not released it; and with a decoder at hand and the output
    within memory, nothing but a trap of the last release keeps the call from
    returning text. *)
Theorem output_decoded_with_replacement wasm d i wasmPtr resultPtr i4 i5 :
  reaches_decode wasm i wasmPtr resultPtr i4 i5 ->
  (exists more, freed (events (call wasm d i)) = [wasmPtr; resultPtr] ++ more) /\
  (forall t, outcome (call wasm d i) = Normal t ->
     t = strip_BOM (map replaced (utf8_run utf8_start
           (slice (memory i5) (output_offset i4 resultPtr)
                              (output_length i4 resultPtr)))) /\
     freed (events (call wasm d i)) =
       [wasmPtr; resultPtr; output_offset i4 resultPtr]) /\
  (forall e, outcome (call wasm d i) = Abrupt e -> e <> RuntimeError ->
     freed (events (call wasm d i)) = [wasmPtr; resultPtr]) /\
  (forall dec i6, d = Some dec ->
     view_fits (Zlen (memory i5))
       (output_offset i4 resultPtr) (output_length i4 resultPtr) = true ->
     free_mem (output_offset i4 resultPtr) i5 = (Some tt, i6) ->
     exists t, outcome (call wasm d i) = Normal t).
Proof.
  unfold output_offset, output_length. intros H. walk_to_decode H.
  destruct d as [dec|].
  - all_paths; (split; [eexists; reflexivity |]).
    all: (split; [intros t E; inversion E; split; reflexivity |]).
    all: (split; [intros e E Hne; inversion E; subst;
                  first [congruence | reflexivity] |]).
    all: intros dec' i6 _ Hv Hf;
      first [discriminate | eexists; reflexivity].
  - all_paths. split; [exists []; reflexivity |].
    split; [discriminate |]. split; [reflexivity |]. discriminate.
Qed.


End Facts.

(* ================================================================= *)
(** * The bridge run against the toy module *)

Import Toy.

(** The hypotheses of the theorems above, met by computation. *)
Ltac reach :=
  unfold reaches_decode, reaches_descriptor, reaches_invocation;
  repeat match goal with
    | |- exists _, _ => eexists
    | |- _ /\ _ => split
    end;
  reflexivity.

(** ** C2, C3, C8 and C10 *)

(** Witness for C2 as amended: the one-byte input [A]. *)
Lemma convert_dwarf_invoked_once_witness :
  exists i2,
    reaches_invocation [x41] healthy 8 9 i2 /\
    count is_convert (events (call [x41] utf8Decoder_initial healthy)) = 1%nat /\
    In (EConvert 8 1 9 13) (events (call [x41] utf8Decoder_initial healthy)) /\
    In (EFree 8) (events (call [x41] utf8Decoder_initial healthy)).
Proof.
  eassert (H : reaches_invocation [x41] healthy 8 9 _) by reach.
  eexists. split; [exact H |].
  destruct (convert_dwarf_invoked_once [x41] utf8Decoder_initial healthy)
    as (_ & Hiff & Hpin).
  split; [apply Hiff; eauto |].
  destruct (Hpin 8 9 _ H) as (_ & _ & Hgo).
  split; [simpl; auto 10 |].
  match type of H with
  | reaches_invocation _ _ _ _ ?i2 =>
      eassert (Hc : convert_dwarf 8 (Zlen [x41]) 9 (9 + 4) i2 = (Some tt, _))
        by reflexivity
  end.
  match type of Hc with
  | _ = (_, ?i3) =>
      assert (Hf : free_mem 8 i3 = (Some tt, i3)) by reflexivity
  end.
  exact (proj1 (Hgo _ _ _ Hc Hf)).
Defined.

(** Counterexample to C2: an input of 100 bytes, for which the toy
    allocator has no room in its 64 bytes and answers 0, so that line 22
    throws; and a one-byte input with an allocator that traps.  Neither call
    invokes the conversion. *)
Lemma no_invocation_counterexample :
  outcome (call (repeat x41 100) utf8Decoder_initial healthy)
    = Abrupt RangeError /\
  events (call (repeat x41 100) utf8Decoder_initial healthy)
    = [EAlloc 100 (Some 0)] /\
  count is_convert
    (events (call (repeat x41 100) utf8Decoder_initial healthy)) = 0%nat /\
  outcome (call [x41] utf8Decoder_initial (fresh 0 Abort 0))
    = Abrupt RuntimeError /\
  count is_convert
    (events (call [x41] utf8Decoder_initial (fresh 0 Abort 0))) = 0%nat.
Proof. repeat split; vm_compute; reflexivity. Qed.




(** Witness for C10: three calls in a row on a healthy module, none of which
    returns text or makes a decoder; the first reaches the decode step. *)
Lemma decoder_never_constructed_witness :
  snd (session [[x41]; []; [x80]] utf8Decoder_initial healthy) = None /\
  Forall stops_before_output
    (fst (session [[x41]; []; [x80]] utf8Decoder_initial healthy)) /\
  exists i4 i5,
    reaches_decode [x41] healthy 8 9 i4 i5 /\
    outcome (call [x41] utf8Decoder_initial healthy) = Abrupt TypeError /\
    freed (events (call [x41] utf8Decoder_initial healthy)) = [8; 9] /\
    output_offset i4 9 = 21.
Proof.
  destruct (decoder_never_constructed [[x41]; []; [x80]] healthy)
    as (Hd & Hall & Hcall).
  split; [exact Hd |]. split; [exact Hall |].
  eassert (H : reaches_decode [x41] healthy 8 9 _ _) by reach.
  do 2 eexists. split; [exact H |].
  destruct (Hcall [x41] healthy 8 9 _ _ H) as (Ho & _).
  split; [exact Ho |]. split; reflexivity.
Defined.

(** ** C7: the decoder test is the wrong way round *)

(** C7. On the first call the decoder is absent and is not made: the call
    throws a [TypeError] at the decode step and leaves [utf8Decoder]
    [undefined], so the next call fares the same.  Where a decoder is
    present, it is not reused but made anew. *)
Theorem decoder_test_inverted :
  outcome (call [x41] utf8Decoder_initial healthy) = Abrupt TypeError /\
  decoder_after (call [x41] utf8Decoder_initial healthy) = None /\
  count is_new_decoder (events (call [x41] utf8Decoder_initial healthy)) = 0%nat /\
  map fst (fst (session [[x41]; [x41]] utf8Decoder_initial healthy)) =
    [Abrupt TypeError; Abrupt TypeError] /\
  count is_new_decoder
    (events (call [x41] (Some new_TextDecoder) healthy)) = 1%nat /\
  outcome (call [x41] (Some new_TextDecoder) healthy) = Normal [0x41].
Proof. repeat split; vm_compute; reflexivity. Qed.

(** ** The claims that fail *)





(** Counterexample to C5: the module declares an output of 101 bytes at
    offset 21 in a memory of 64 bytes.  The call throws the same [TypeError]
    as with an honest module; no error tells the corrupt result apart, and in
    particular not the [RangeError] of a bounds check. *)
Lemma corrupt_result_counterexample :
  events (call [x41] utf8Decoder_initial (fresh 100 ReturnNull 100)) =
    [ EAlloc 1 (Some 8); EStore 8 [x41]; EAlloc 12 (Some 9);
      EConvert 8 1 9 13; EFree 8;
      ELoad 9 4 [x15; x00; x00; x00]; ELoad 13 4 [x65; x00; x00; x00];
      EFree 9 ] /\
  u32le x15 x00 x00 x00 = 21 /\
  u32le x65 x00 x00 x00 = 101 /\
  Zlen (memory (instance_after
                  (call [x41] utf8Decoder_initial (fresh 100 ReturnNull 100))))
    = 64 /\
  view_fits 64 21 101 = false /\
  outcome (call [x41] utf8Decoder_initial (fresh 100 ReturnNull 100))
    = Abrupt TypeError /\
  outcome (call [x41] utf8Decoder_initial (fresh 100 ReturnNull 100))
    <> Abrupt RangeError /\
  outcome (call [x41] utf8Decoder_initial healthy) = Abrupt TypeError.
Proof.
  repeat split; try (vm_compute; reflexivity).
  vm_compute. discriminate.
Qed.

(** Witness for C5 as amended. *)
Lemma out_of_bounds_output_not_read_witness :
  exists i4 i5,
    reaches_decode [x41] (fresh 100 ReturnNull 100) 8 9 i4 i5 /\
    output_offset i4 9 = 21 /\ output_length i4 9 = 101 /\
    (exists e, outcome (call [x41] (Some new_TextDecoder)
                          (fresh 100 ReturnNull 100)) = Abrupt e) /\
    (Some new_TextDecoder <> None ->
     outcome (call [x41] (Some new_TextDecoder) (fresh 100 ReturnNull 100))
       = Abrupt RangeError) /\
    loads (events (call [x41] (Some new_TextDecoder) (fresh 100 ReturnNull 100)))
      = [(9, 4); (9 + 4, 4)] /\
    freed (events (call [x41] (Some new_TextDecoder) (fresh 100 ReturnNull 100)))
      = [8; 9].
Proof.
  eassert (H : reaches_decode [x41] (fresh 100 ReturnNull 100) 8 9 _ _)
    by reach.
  do 2 eexists. split; [exact H |].
  split; [reflexivity |]. split; [reflexivity |].
  apply (out_of_bounds_output_not_read [x41] (Some new_TextDecoder)
           (fresh 100 ReturnNull 100) 8 9 _ _ H).
  reflexivity.
Defined.

(** Counterexample to C6: the output is the lone continuation byte 0x80, at
    offset 21.  The call throws a [TypeError] for want of a decoder, with the
    output region not released; and with a decoder at hand the call returns
    the substituted text U+FFFD rather than an error. *)
Lemma invalid_utf8_counterexample :
  events (call [x80] utf8Decoder_initial healthy) =
    [ EAlloc 1 (Some 8); EStore 8 [x80]; EAlloc 12 (Some 9);
      EConvert 8 1 9 13; EFree 8;
      ELoad 9 4 [x15; x00; x00; x00]; ELoad 13 4 [x01; x00; x00; x00];
      EFree 9 ] /\
  slice (memory (instance_after (call [x80] utf8Decoder_initial healthy))) 21 1
    = [x80] /\
  outcome (call [x80] utf8Decoder_initial healthy) = Abrupt TypeError /\
  freed (events (call [x80] utf8Decoder_initial healthy)) = [8; 9] /\
  ~ In 21 (freed (events (call [x80] utf8Decoder_initial healthy))) /\
  outcome (call [x80] (Some new_TextDecoder) healthy) = Normal [0xFFFD].
Proof.
  repeat split; try (vm_compute; reflexivity).
  vm_compute. intros [E | [E | []]]; discriminate.
Qed.

(** Witness for C6 as amended: the same output, with a decoder at hand. *)
Lemma output_decoded_with_replacement_witness :
  exists i4 i5,
    reaches_decode [x80] healthy 8 9 i4 i5 /\
    slice (memory i5) (output_offset i4 9) (output_length i4 9) = [x80] /\
    outcome (call [x80] (Some new_TextDecoder) healthy) = Normal [0xFFFD] /\
    freed (events (call [x80] (Some new_TextDecoder) healthy)) =
      [8; 9; output_offset i4 9] /\
    freed (events (call [x80] utf8Decoder_initial healthy)) = [8; 9].
Proof.
  eassert (H : reaches_decode [x80] healthy 8 9 _ _) by reach.
  do 2 eexists. split; [exact H |]. split; [reflexivity |].
  destruct (output_decoded_with_replacement [x80] (Some new_TextDecoder)
              healthy 8 9 _ _ H) as (_ & Hret & _ & _).
  destruct (Hret [0xFFFD] eq_refl) as (_ & Hfreed).
  split; [reflexivity |]. split; [exact Hfreed |].
  destruct (output_decoded_with_replacement [x80] utf8Decoder_initial
              healthy 8 9 _ _ H) as (_ & _ & Hfail & _).
  apply (Hfail TypeError); [reflexivity | discriminate].
Defined.



(* ================================================================= *)
(** * More of [convertDwarfToJSON]: the copy-in, the failing exits, the
      decoder variable, and what the bridge never does *)

(** ** The copy-in *)

Lemma poke_length {X : Type} (buf : list X) (off : Z) (data : list X) :
  0 <= off -> off + Zlen data <= Zlen buf ->
  Zlen (poke buf off data) = Zlen buf.
Proof.
  unfold Zlen, poke. intros Hoff Hfit.
  rewrite !length_app, length_firstn, length_skipn. lia.
Qed.

Lemma slice_poke {X : Type} (buf : list X) (off : Z) (data : list X) :
  0 <= off -> off + Zlen data <= Zlen buf ->
  slice (poke buf off data) off (Zlen data) = data.
Proof.
  unfold Zlen, slice, poke. intros Hoff Hfit.
  assert (Hlen : length (firstn (Z.to_nat off) buf) = Z.to_nat off)
    by (rewrite length_firstn; lia).
  rewrite skipn_app, Hlen, Nat.sub_diag, skipn_all2 by lia.
  cbn [app skipn]. rewrite Nat2Z.id.
  rewrite firstn_app, Nat.sub_diag, firstn_all2 by lia.
  cbn [firstn]. apply app_nil_r.
Qed.

Lemma poke_elsewhere {X : Type} (buf : list X) (off : Z) (data : list X) (k : nat) :
  0 <= off -> off + Zlen data <= Zlen buf ->
  Z.of_nat k < off \/ off + Zlen data <= Z.of_nat k ->
  nth_error (poke buf off data) k = nth_error buf k.
Proof.
  unfold Zlen, poke. intros Hoff Hfit Hk.
  assert (Hlen : length (firstn (Z.to_nat off) buf) = Z.to_nat off)
    by (rewrite length_firstn; lia).
  destruct Hk as [Hk | Hk].
  - rewrite nth_error_app1 by lia.
    rewrite nth_error_firstn.
    destruct (Nat.ltb_spec k (Z.to_nat off)); [reflexivity | lia].
  - rewrite nth_error_app2 by lia.
    rewrite nth_error_app2 by lia.
    rewrite nth_error_skipn, Hlen. f_equal. lia.
Qed.

Section More.
Context {A : Type} {module : Exports A}.
Implicit Types (wasm : list byte) (d : option TextDecoder) (i : Instance A).

(** X1. Once the first reserve has returned an offset whose region lies
    within memory, the input is copied there verbatim: the second reserve
    runs on a memory of the same length that holds the input in that region
    and is unchanged everywhere else. *)
Theorem input_copied_verbatim wasm d i wasmPtr i1 :
  alloc_mem (Zlen wasm) i = (Some wasmPtr, i1) ->
  view_fits (Zlen (memory i1)) wasmPtr (Zlen wasm) = true ->
  exists r i2 rest,
    alloc_mem 12 (written i1 wasmPtr wasm) = (r, i2) /\
    events (call wasm d i) =
      [ EAlloc (Zlen wasm) (Some wasmPtr); EStore wasmPtr wasm;
        EAlloc 12 r ] ++ rest /\
    Zlen (memory (written i1 wasmPtr wasm)) = Zlen (memory i1) /\
    slice (memory (written i1 wasmPtr wasm)) wasmPtr (Zlen wasm) = wasm /\
    (forall k : nat,
       Z.of_nat k < wasmPtr \/ wasmPtr + Zlen wasm <= Z.of_nat k ->
       nth_error (memory (written i1 wasmPtr wasm)) k
         = nth_error (memory i1) k) /\
    internals (written i1 wasmPtr wasm) = internals i1.
Proof.
  intros Hin Hfit.
  destruct (alloc_mem 12 (written i1 wasmPtr wasm)) as [r i2] eqn:Hdesc.
  exists r, i2.
  assert (Hb : 0 <= wasmPtr /\ wasmPtr + Zlen wasm <= Zlen (memory i1))
    by (apply view_fits_spec in Hfit; lia).
  assert (Hrest : exists rest,
    events (call wasm d i) =
      [ EAlloc (Zlen wasm) (Some wasmPtr); EStore wasmPtr wasm;
        EAlloc 12 r ] ++ rest).
  { unfold call, convertDwarfToJSON, events.
    step @alloc_returns. step @Uint8Array_fits.
    erewrite bind_step by apply set_whole_view. tidy.
    destruct r as [resultPtr |].
    - step @alloc_returns. all_paths; eexists; reflexivity.
    - erewrite bind_stop by (apply alloc_traps; tidy; eassumption).
      exists []. reflexivity. }
  destruct Hrest as (rest & Hrest). exists rest.
  split; [reflexivity |]. split; [exact Hrest |].
  cbn [written memory internals].
  split; [apply poke_length; lia |].
  split; [apply slice_poke; lia |].
  split; [| reflexivity].
  intros k Hk. apply poke_elsewhere; lia.
Qed.

(** ** The failing exits before the decode step *)

(** X2. When the offset the first reserve returned does not leave room for
    the input within memory, the [Uint8Array] constructor throws a
    [RangeError]: nothing is written, the conversion is not invoked, and the
    region just reserved is not released. *)
Theorem input_region_overrun wasm d i wasmPtr i1 :
  alloc_mem (Zlen wasm) i = (Some wasmPtr, i1) ->
  view_fits (Zlen (memory i1)) wasmPtr (Zlen wasm) = false ->
  outcome (call wasm d i) = Abrupt RangeError /\
  events (call wasm d i) = [EAlloc (Zlen wasm) (Some wasmPtr)] /\
  instance_after (call wasm d i) = i1 /\
  decoder_after (call wasm d i) = d.
Proof.
  intros Hin Hfit.
  unfold call, convertDwarfToJSON, outcome, events, instance_after,
    decoder_after.
  step @alloc_returns. open_bridge. rewrite Hfit. repeat split.
Qed.

(** X3. When the second reserve traps, the call ends with that trap and the
    input region, reserved and filled by then, is not released. *)
Theorem descriptor_reserve_trap_leaks_input wasm d i wasmPtr i1 i2 :
  alloc_mem (Zlen wasm) i = (Some wasmPtr, i1) ->
  view_fits (Zlen (memory i1)) wasmPtr (Zlen wasm) = true ->
  alloc_mem 12 (written i1 wasmPtr wasm) = (None, i2) ->
  outcome (call wasm d i) = Abrupt RuntimeError /\
  events (call wasm d i) =
    [ EAlloc (Zlen wasm) (Some wasmPtr); EStore wasmPtr wasm;
      EAlloc 12 None ] /\
  instance_after (call wasm d i) = i2 /\
  decoder_after (call wasm d i) = d.
Proof.
  intros Hin Hfit Hdesc.
  unfold call, convertDwarfToJSON, outcome, events, instance_after,
    decoder_after.
  step @alloc_returns. step @Uint8Array_fits.
  erewrite bind_step by apply set_whole_view. tidy.
  erewrite bind_stop by (apply alloc_traps; tidy; eassumption).
  repeat split.
Qed.

(** X4. When the conversion traps, the call ends with that trap right
    there: neither the input region nor the descriptor region is released,
    the descriptor is not read, and the module is left as the trap left it. *)
Theorem conversion_trap_releases_nothing wasm d i wasmPtr resultPtr i2 i3 :
  reaches_invocation wasm i wasmPtr resultPtr i2 ->
  convert_dwarf wasmPtr (Zlen wasm) resultPtr (resultPtr + 4) i2 = (None, i3) ->
  outcome (call wasm d i) = Abrupt RuntimeError /\
  events (call wasm d i) =
    [ EAlloc (Zlen wasm) (Some wasmPtr); EStore wasmPtr wasm;
      EAlloc 12 (Some resultPtr);
      EConvert wasmPtr (Zlen wasm) resultPtr (resultPtr + 4) ] /\
  freed (events (call wasm d i)) = [] /\
  instance_after (call wasm d i) = i3 /\
  decoder_after (call wasm d i) = d.
Proof.
  intros H Htrap. walk_to_invocation H.
  open_bridge. rewrite Htrap. repeat split.
Qed.

(** X5. When the descriptor's offset does not leave room for its twelve
    bytes within memory, the [DataView] constructor throws a [RangeError]
    after the input region has been released: the descriptor is neither
    read nor released. *)
Theorem descriptor_region_overrun wasm d i wasmPtr resultPtr i2 i3 i4 :
  reaches_invocation wasm i wasmPtr resultPtr i2 ->
  convert_dwarf wasmPtr (Zlen wasm) resultPtr (resultPtr + 4) i2
    = (Some tt, i3) ->
  free_mem wasmPtr i3 = (Some tt, i4) ->
  view_fits (Zlen (memory i4)) resultPtr 12 = false ->
  outcome (call wasm d i) = Abrupt RangeError /\
  events (call wasm d i) =
    [ EAlloc (Zlen wasm) (Some wasmPtr); EStore wasmPtr wasm;
      EAlloc 12 (Some resultPtr);
      EConvert wasmPtr (Zlen wasm) resultPtr (resultPtr + 4);
      EFree wasmPtr ] /\
  instance_after (call wasm d i) = i4 /\
  decoder_after (call wasm d i) = d.
Proof.
  intros H Hconv Hfree Hview. walk_to_invocation H.
  step @convert_returns. step @free_returns.
  open_bridge. rewrite Hview. repeat split.
Qed.

(** ** The decoder variable *)

(** What one call does to [utf8Decoder]. *)
Lemma decoder_after_call wasm d i :
  decoder_after (call wasm d i) = d \/
  (d <> None /\ decoder_after (call wasm d i) = Some new_TextDecoder).
Proof.
  unfold call, convertDwarfToJSON, decoder_after.
  destruct d as [dec |]; all_paths; auto; right; split; congruence.
Qed.

(** X6. Over any sequence of calls the variable [utf8Decoder] keeps to its
    side: where it holds a decoder it never goes back to [undefined] (it
    ends as it began or as the default decoder), and where it is [undefined]
    it stays so. *)
Theorem decoder_presence_invariant (inputs : list (list byte)) d i :
  snd (session inputs d i) = d \/
  (d <> None /\ snd (session inputs d i) = Some new_TextDecoder).
Proof.
  revert d i. induction inputs as [|wasm rest IH]; intros d i; cbn [session].
  - now left.
  - specialize (IH (decoder_after (call wasm d i))
                   (instance_after (call wasm d i))).
    destruct (session rest _ _) as [results d']. cbn [snd] in *.
    destruct (decoder_after_call wasm d i) as [E | (Hd & E)];
      rewrite E in IH.
    + exact IH.
    + right. split; [exact Hd |].
      destruct IH as [IH | (_ & IH)]; exact IH.
Qed.

(** X7. A [TypeError] leaves a call exactly when [utf8Decoder] is
    [undefined] and the call reaches the decode step.  With a decoder in the
    variable, whatever its options, no call throws one: the decoder that
    decodes is the default one made on line 30, which replaces what is
    malformed. *)
Theorem TypeError_iff_decoder_missing wasm d i :
  outcome (call wasm d i) = Abrupt TypeError <->
  d = None /\
  exists wasmPtr resultPtr i4 i5, reaches_decode wasm i wasmPtr resultPtr i4 i5.
Proof.
  split.
  - unfold call, convertDwarfToJSON, outcome.
    destruct d as [dec |]; all_paths; intros E; try discriminate.
    split; [reflexivity |].
    subst.
    repeat match goal with u : unit |- _ => destruct u end.
    unfold reaches_decode, reaches_descriptor, reaches_invocation.
    do 4 eexists. split; [| eassumption].
    do 2 eexists. split; [| split; [eassumption | split; eassumption]].
    eexists. split; [eassumption | split; eassumption].
  - intros (-> & wasmPtr & resultPtr & i4 & i5 & H).
    walk_to_decode H. reflexivity.
Qed.

(** X8. The variable [utf8Decoder] has no bearing on a call before the
    decode step: with a decoder the call does all that it does without one
    and, where the latter stops at the decode step, goes on from there by
    making a decoder; where the latter stops earlier, the two calls end
    alike. *)
Theorem decoder_matters_from_decode_step wasm (dec : TextDecoder) i :
  exists rest,
    events (call wasm (Some dec) i) = events (call wasm None i) ++ rest /\
    ((outcome (call wasm None i) = Abrupt TypeError /\
      exists rest', rest = ENewTextDecoder :: rest') \/
     (rest = [] /\
      outcome (call wasm (Some dec) i) = outcome (call wasm None i) /\
      instance_after (call wasm (Some dec) i)
        = instance_after (call wasm None i))).
Proof.
  unfold call, convertDwarfToJSON, events, outcome, instance_after.
  all_paths; eexists; (split; [reflexivity |]);
    first [ left; split; [reflexivity | eexists; reflexivity]
          | right; repeat split ].
Qed.

(** ** What a call never does *)

(** X9. Whatever the module does, one call makes at most two reserves (of
    the input's length and of 12 bytes), one write to memory, one
    invocation, three releases and three reads, and makes at most one
    decoder. *)
Theorem call_footprint wasm d i :
  (count is_alloc (events (call wasm d i)) <= 2)%nat /\
  (count is_store (events (call wasm d i)) <= 1)%nat /\
  (count is_convert (events (call wasm d i)) <= 1)%nat /\
  (count is_free (events (call wasm d i)) <= 3)%nat /\
  (count is_load (events (call wasm d i)) <= 3)%nat /\
  (count is_new_decoder (events (call wasm d i)) <= 1)%nat /\
  (forall n r, In (EAlloc n r) (events (call wasm d i)) ->
     n = Zlen wasm \/ n = 12).
Proof.
  unfold call, convertDwarfToJSON, events.
  all_paths; unfold count; simpl;
    (repeat (split; [lia |])); intros n r Hin;
    repeat (destruct Hin as [Hin | Hin]);
    try discriminate; try contradiction;
    injection Hin as <- _; auto.
Qed.

(** An event is in a log given by its elements. *)
Ltac in_log := solve [simpl; repeat (first [left; reflexivity | right])].

(** What a read of the descriptor view returns, when it returns. *)
Lemma getUint32_value (mem : list byte) (ptr off x : Z) :
  getUint32 mem {| byteOffset := ptr; byteLength := 12 |} off true = Normal x ->
  x = le_value (slice mem (ptr + off) 4).
Proof.
  unfold getUint32. cbn [byteOffset byteLength].
  destruct ((0 <=? off) && (off + 4 <=? 12)); intros H;
    [now injection H | discriminate].
Qed.

Ltac read_values :=
  repeat match goal with
    | H : getUint32 _ _ _ _ = Normal ?x |- _ =>
        apply getUint32_value in H; subst x
    end.

(** X10. The bridge touches nothing it was not given: what it writes to
    memory is the input, at the offset the first reserve returned; and every
    offset it releases was returned by one of its reserves or read from the
    descriptor. *)
Theorem nothing_foreign_touched wasm d i :
  (forall a data,
     In (EStore a data) (events (call wasm d i)) ->
     data = wasm /\
     In (EAlloc (Zlen wasm) (Some a)) (events (call wasm d i))) /\
  (forall p,
     In (EFree p) (events (call wasm d i)) ->
     (exists n, In (EAlloc n (Some p)) (events (call wasm d i))) \/
     (exists a bytes,
        In (ELoad a 4 bytes) (events (call wasm d i)) /\ p = le_value bytes)).
Proof.
  unfold call, convertDwarfToJSON, events.
  all_paths; read_values; split.
  all: first
    [ intros a data Hin; simpl in Hin;
      repeat (destruct Hin as [Hin | Hin]);
      try discriminate; try contradiction;
      injection Hin as <- <-; (split; [reflexivity | in_log])
    | intros p Hin; simpl in Hin;
      repeat (destruct Hin as [Hin | Hin]);
      try discriminate; try contradiction;
      injection Hin as <-;
      first [ left; eexists; in_log
            | right; do 2 eexists; split; [in_log | reflexivity] ] ].
Qed.

(** X11. A trap in any of the module's exports ends the call on the spot,
    at each of the six places where the bridge calls into the module: the
    call throws the [RuntimeError], the trapped call is the last thing in
    the log, and the module is left as the trap left it; nothing is
    released afterwards, and a text already decoded is lost.  Conversely a
    [RuntimeError] leaves a call only from such a place. *)
Theorem trap_ends_the_call wasm d i :
  (* line 21 *)
  (forall i1,
     alloc_mem (Zlen wasm) i = (None, i1) ->
     outcome (call wasm d i) = Abrupt RuntimeError /\
     events (call wasm d i) = [EAlloc (Zlen wasm) None] /\
     instance_after (call wasm d i) = i1) /\
  (* line 23 *)
  (forall wasmPtr i1 i2,
     alloc_mem (Zlen wasm) i = (Some wasmPtr, i1) ->
     view_fits (Zlen (memory i1)) wasmPtr (Zlen wasm) = true ->
     alloc_mem 12 (written i1 wasmPtr wasm) = (None, i2) ->
     outcome (call wasm d i) = Abrupt RuntimeError /\
     events (call wasm d i) =
       [ EAlloc (Zlen wasm) (Some wasmPtr); EStore wasmPtr wasm;
         EAlloc 12 None ] /\
     instance_after (call wasm d i) = i2) /\
  (* line 24 *)
  (forall wasmPtr resultPtr i2 i3,
     reaches_invocation wasm i wasmPtr resultPtr i2 ->
     convert_dwarf wasmPtr (Zlen wasm) resultPtr (resultPtr + 4) i2
       = (None, i3) ->
     outcome (call wasm d i) = Abrupt RuntimeError /\
     events (call wasm d i) =
       [ EAlloc (Zlen wasm) (Some wasmPtr); EStore wasmPtr wasm;
         EAlloc 12 (Some resultPtr);
         EConvert wasmPtr (Zlen wasm) resultPtr (resultPtr + 4) ] /\
     instance_after (call wasm d i) = i3) /\
  (* line 25 *)
  (forall wasmPtr resultPtr i2 i3 i4,
     reaches_invocation wasm i wasmPtr resultPtr i2 ->
     convert_dwarf wasmPtr (Zlen wasm) resultPtr (resultPtr + 4) i2
       = (Some tt, i3) ->
     free_mem wasmPtr i3 = (None, i4) ->
     outcome (call wasm d i) = Abrupt RuntimeError /\
     events (call wasm d i) =
       [ EAlloc (Zlen wasm) (Some wasmPtr); EStore wasmPtr wasm;
         EAlloc 12 (Some resultPtr);
         EConvert wasmPtr (Zlen wasm) resultPtr (resultPtr + 4);
         EFree wasmPtr ] /\
     instance_after (call wasm d i) = i4) /\
  (* line 28 *)
  (forall wasmPtr resultPtr i4 i5,
     reaches_descriptor wasm i wasmPtr resultPtr i4 ->
     free_mem resultPtr i4 = (None, i5) ->
     outcome (call wasm d i) = Abrupt RuntimeError /\
     events (call wasm d i) =
       [ EAlloc (Zlen wasm) (Some wasmPtr); EStore wasmPtr wasm;
         EAlloc 12 (Some resultPtr);
         EConvert wasmPtr (Zlen wasm) resultPtr (resultPtr + 4);
         EFree wasmPtr;
         ELoad resultPtr 4 (slice (memory i4) resultPtr 4);
         ELoad (resultPtr + 4) 4 (slice (memory i4) (resultPtr + 4) 4);
         EFree resultPtr ] /\
     instance_after (call wasm d i) = i5 /\
     decoder_after (call wasm d i) = d) /\
  (* line 33 *)
  (forall wasmPtr resultPtr i4 i5 i6,
     d <> None ->
     reaches_decode wasm i wasmPtr resultPtr i4 i5 ->
     view_fits (Zlen (memory i5))
       (output_offset i4 resultPtr) (output_length i4 resultPtr) = true ->
     free_mem (output_offset i4 resultPtr) i5 = (None, i6) ->
     outcome (call wasm d i) = Abrupt RuntimeError /\
     events (call wasm d i) =
       [ EAlloc (Zlen wasm) (Some wasmPtr); EStore wasmPtr wasm;
         EAlloc 12 (Some resultPtr);
         EConvert wasmPtr (Zlen wasm) resultPtr (resultPtr + 4);
         EFree wasmPtr;
         ELoad resultPtr 4 (slice (memory i4) resultPtr 4);
         ELoad (resultPtr + 4) 4 (slice (memory i4) (resultPtr + 4) 4);
         EFree resultPtr; ENewTextDecoder;
         ELoad (output_offset i4 resultPtr) (output_length i4 resultPtr)
           (slice (memory i5) (output_offset i4 resultPtr)
              (output_length i4 resultPtr));
         EFree (output_offset i4 resultPtr) ] /\
     instance_after (call wasm d i) = i6) /\
  (* and only there *)
  (outcome (call wasm d i) = Abrupt RuntimeError ->
   may_trap (last (events (call wasm d i)) ENewTextDecoder) = true).
Proof.
  repeat apply conj.
  - intros i1 H.
    unfold call, convertDwarfToJSON, outcome, events, instance_after.
    erewrite bind_stop by (apply alloc_traps; tidy; eassumption).
    repeat split.
  - intros wasmPtr i1 i2 Hin Hfit Hdesc.
    unfold call, convertDwarfToJSON, outcome, events, instance_after.
    step @alloc_returns. step @Uint8Array_fits.
    erewrite bind_step by apply set_whole_view. tidy.
    erewrite bind_stop by (apply alloc_traps; tidy; eassumption).
    repeat split.
  - intros wasmPtr resultPtr i2 i3 H Htrap. walk_to_invocation H.
    open_bridge. rewrite Htrap. repeat split.
  - intros wasmPtr resultPtr i2 i3 i4 H Hconv Htrap. walk_to_invocation H.
    step @convert_returns. open_bridge. rewrite Htrap. repeat split.
  - intros wasmPtr resultPtr i4 i5 H Htrap. walk_to_descriptor H.
    open_bridge. rewrite Htrap. repeat split.
  - unfold output_offset, output_length.
    intros wasmPtr resultPtr i4 i5 i6 Hd H Hv Htrap. walk_to_decode H.
    destruct d as [dec |]; [| congruence].
    open_bridge. rewrite Hv. tidy. unfold decode. tidy.
    rewrite Htrap. repeat split.
  - unfold call, convertDwarfToJSON, outcome, events.
    all_paths; intros E; try discriminate; reflexivity.
Qed.

End More.

(** ** The same, run against the toy modules *)

(** Witness for X1: the one-byte input [A] lands at offset 8. *)
Lemma input_copied_verbatim_witness :
  exists i1,
    alloc_mem 1 healthy = (Some 8, i1) /\
    view_fits (Zlen (memory i1)) 8 1 = true /\
    slice (memory (written i1 8 [x41])) 8 1 = [x41] /\
    exists r i2 rest,
      alloc_mem 12 (written i1 8 [x41]) = (r, i2) /\
      events (call [x41] utf8Decoder_initial healthy) =
        [ EAlloc 1 (Some 8); EStore 8 [x41]; EAlloc 12 r ] ++ rest /\
      Zlen (memory (written i1 8 [x41])) = Zlen (memory i1) /\
      slice (memory (written i1 8 [x41])) 8 (Zlen [x41]) = [x41] /\
      (forall k : nat,
         Z.of_nat k < 8 \/ 8 + Zlen [x41] <= Z.of_nat k ->
         nth_error (memory (written i1 8 [x41])) k = nth_error (memory i1) k) /\
      internals (written i1 8 [x41]) = internals i1.
Proof.
  eassert (H1 : alloc_mem (Zlen [x41]) healthy = (Some 8, _)) by reflexivity.
  eexists. split; [exact H1 |].
  assert (H2 : view_fits (Zlen (memory (snd (alloc_mem 1 healthy)))) 8
                 (Zlen [x41]) = true) by reflexivity.
  split; [exact H2 |]. split; [reflexivity |].
  exact (input_copied_verbatim [x41] utf8Decoder_initial healthy 8 _ H1 H2).
Defined.

(** Witness for X2: an input of 100 bytes, for which the toy allocator has
    no room and answers 0, in a memory of 64 bytes. *)
Lemma input_region_overrun_witness :
  alloc_mem 100 healthy = (Some 0, healthy) /\
  view_fits (Zlen (memory healthy)) 0 100 = false /\
  outcome (call (repeat x41 100) utf8Decoder_initial healthy)
    = Abrupt RangeError /\
  events (call (repeat x41 100) utf8Decoder_initial healthy)
    = [EAlloc 100 (Some 0)].
Proof.
  assert (H1 : alloc_mem (Zlen (repeat x41 100)) healthy = (Some 0, healthy))
    by reflexivity.
  assert (H2 : view_fits (Zlen (memory healthy)) 0 (Zlen (repeat x41 100))
                 = false) by reflexivity.
  split; [exact H1 |]. split; [exact H2 |].
  destruct (input_region_overrun (repeat x41 100) utf8Decoder_initial
              healthy 0 healthy H1 H2) as (Ho & Ev & _).
  split; [exact Ho | exact Ev].
Defined.

(** Witness for X3: an allocator that grants one request and then traps. *)
Lemma descriptor_reserve_trap_leaks_input_witness :
  exists i1 i2,
    alloc_mem 1 (fresh 1 Abort 0) = (Some 8, i1) /\
    view_fits (Zlen (memory i1)) 8 1 = true /\
    alloc_mem 12 (written i1 8 [x41]) = (None, i2) /\
    outcome (call [x41] utf8Decoder_initial (fresh 1 Abort 0))
      = Abrupt RuntimeError /\
    events (call [x41] utf8Decoder_initial (fresh 1 Abort 0))
      = [EAlloc 1 (Some 8); EStore 8 [x41]; EAlloc 12 None].
Proof.
  eassert (H1 : alloc_mem (Zlen [x41]) (fresh 1 Abort 0) = (Some 8, _))
    by reflexivity.
  match type of H1 with
  | _ = (_, ?i1) =>
      eassert (H3 : alloc_mem 12 (written i1 8 [x41]) = (None, _))
        by reflexivity
  end.
  do 2 eexists. split; [exact H1 |].
  assert (H2 : view_fits
                 (Zlen (memory (snd (alloc_mem 1 (fresh 1 Abort 0))))) 8
                 (Zlen [x41]) = true) by reflexivity.
  split; [exact H2 |]. split; [exact H3 |].
  destruct (descriptor_reserve_trap_leaks_input [x41] utf8Decoder_initial
              (fresh 1 Abort 0) 8 _ _ H1 H2 H3) as (Ho & Ev & _).
  split; [exact Ho | exact Ev].
Defined.

(** Witness for X4: an input of 30 bytes, whose copy the toy conversion
    cannot place in what is left of the 64 bytes. *)
Lemma conversion_trap_releases_nothing_witness :
  exists i2,
    reaches_invocation (repeat x41 30) healthy 8 38 i2 /\
    convert_dwarf 8 30 38 42 i2 = (None, i2) /\
    outcome (call (repeat x41 30) utf8Decoder_initial healthy)
      = Abrupt RuntimeError /\
    freed (events (call (repeat x41 30) utf8Decoder_initial healthy)) = [].
Proof.
  eassert (H : reaches_invocation (repeat x41 30) healthy 8 38 _) by reach.
  match type of H with
  | reaches_invocation _ _ _ _ ?i2 =>
      assert (Ht : convert_dwarf 8 (Zlen (repeat x41 30)) 38 (38 + 4) i2
                   = (None, i2)) by reflexivity
  end.
  eexists. split; [exact H |]. split; [exact Ht |].
  destruct (conversion_trap_releases_nothing (repeat x41 30)
              utf8Decoder_initial healthy 8 38 _ _ H Ht)
    as (Ho & _ & Hf & _).
  split; [exact Ho | exact Hf].
Defined.

(** Witness for X5: the careless allocator puts the descriptor at offset 58
    of 64, six bytes short. *)
Lemma descriptor_region_overrun_witness :
  exists i2,
    reaches_invocation (module := careless) (repeat x41 50) healthy 8 58 i2 /\
    view_fits (Zlen (memory i2)) 58 12 = false /\
    outcome (call (module := careless) (repeat x41 50)
               utf8Decoder_initial healthy) = Abrupt RangeError /\
    freed (events (call (module := careless) (repeat x41 50)
                     utf8Decoder_initial healthy)) = [8].
Proof.
  eassert (H : reaches_invocation (module := careless)
                 (repeat x41 50) healthy 8 58 _) by reach.
  eexists. split; [exact H |].
  assert (Hv : view_fits
                 (Zlen (memory
                    (written (snd (careless_alloc_mem 50 healthy)) 8
                       (repeat x41 50)))) 58 12 = false) by reflexivity.
  split; [exact Hv |].
  destruct (descriptor_region_overrun (module := careless) (repeat x41 50)
              utf8Decoder_initial healthy 8 58 _ _ _ H eq_refl eq_refl Hv)
    as (Ho & Ev & _).
  split; [exact Ho |]. rewrite Ev. reflexivity.
Defined.

(** Witness for X11: a module whose [free_mem] traps on the output region
    (offset 21), with a decoder at hand; and one whose [free_mem] traps on
    the input region (offset 8). *)
Lemma trap_ends_the_call_witness :
  (exists i4 i5,
     reaches_decode (module := brittle 21) [x41] healthy 8 9 i4 i5 /\
     output_offset i4 9 = 21 /\
     free_mem (Exports := brittle 21) 21 i5 = (None, i5) /\
     outcome (call (module := brittle 21) [x41] (Some new_TextDecoder) healthy)
       = Abrupt RuntimeError /\
     instance_after
       (call (module := brittle 21) [x41] (Some new_TextDecoder) healthy) = i5) /\
  (exists i2 i3,
     reaches_invocation (module := brittle 8) [x41] healthy 8 9 i2 /\
     convert_dwarf (Exports := brittle 8) 8 1 9 13 i2 = (Some tt, i3) /\
     free_mem (Exports := brittle 8) 8 i3 = (None, i3) /\
     outcome (call (module := brittle 8) [x41] utf8Decoder_initial healthy)
       = Abrupt RuntimeError /\
     freed (events (call (module := brittle 8) [x41] utf8Decoder_initial healthy))
       = [8]).
Proof.
  split.
  - eassert (H : reaches_decode (module := brittle 21) [x41] healthy 8 9 _ _)
      by reach.
    do 2 eexists. split; [exact H |]. split; [reflexivity |].
    match type of H with
    | reaches_decode _ _ _ _ ?i4 ?i5 =>
        assert (Hv : view_fits (Zlen (memory i5))
                       (output_offset i4 9) (output_length i4 9) = true)
          by reflexivity;
        assert (Ht : free_mem (Exports := brittle 21)
                       (output_offset i4 9) i5 = (None, i5)) by reflexivity
    end.
    split; [exact Ht |].
    destruct (trap_ends_the_call (module := brittle 21) [x41]
                (Some new_TextDecoder) healthy)
      as (_ & _ & _ & _ & _ & Hlast & _).
    destruct (Hlast 8 9 _ _ _ ltac:(discriminate) H Hv Ht) as (Ho & _ & Hi).
    split; [exact Ho | exact Hi].
  - eassert (H : reaches_invocation (module := brittle 8) [x41] healthy 8 9 _)
      by reach.
    match type of H with
    | reaches_invocation _ _ _ _ ?i2 =>
        eassert (Hc : convert_dwarf (Exports := brittle 8)
                        8 (Zlen [x41]) 9 (9 + 4) i2 = (Some tt, _))
          by reflexivity
    end.
    match type of Hc with
    | _ = (_, ?i3) =>
        assert (Ht : free_mem (Exports := brittle 8) 8 i3 = (None, i3))
          by reflexivity
    end.
    do 2 eexists. split; [exact H |]. split; [exact Hc |].
    split; [exact Ht |].
    destruct (trap_ends_the_call (module := brittle 8) [x41]
                utf8Decoder_initial healthy)
      as (_ & _ & _ & Hfree & _).
    destruct (Hfree 8 9 _ _ _ H Hc Ht) as (Ho & Ev & _).
    split; [exact Ho |]. rewrite Ev. reflexivity.
Defined.
